(** * no-overflow: a liquid-level guard for an AC power switch

    Shallow embedding of [src/main.py]: the bounded queue of recent
    readings ([Queue], [avg]), the four-tier classifier ([State]), the
    power switch with its cool-off timer ([AcPower]) and one iteration of
    the main loop ([tick]).

    Modelling conventions.
    - Python numbers (voltages, monotonic seconds) are exact rationals [Q];
      [<], [>=] and [==] are the boolean tests [Qltb], [Qgeb], [Qeq_bool].
      Rationals have no NaN and no rounding: every concrete value used
      below (1.5, 2.25, their sums and means, whole seconds) is a dyadic
      rational, on which binary floating point computes the same results.
    - Python exceptions are the [Raise] case of [result].
    - [time.monotonic()] is an explicit argument [now].
    - Object mutation is explicit state passing: a method takes the object
      and returns the updated one. *)

From Stdlib Require Import ZArith QArith Bool List String Lia Lqa.
Import ListNotations.

Open Scope Q_scope.

(** ** Python runtime pieces *)

(** The built-in exceptions the modelled code can raise. *)
Inductive exception : Type :=
| IndexError
| ZeroDivisionError.

Inductive result (A : Type) : Type :=
| Ok (a : A)
| Raise (e : exception).

Arguments Ok {A} a.
Arguments Raise {A} e.

Definition bind {A B : Type} (m : result A) (k : A -> result B) : result B :=
  match m with
  | Ok a => k a
  | Raise e => Raise e
  end.

Notation "x <- m ;; k" := (bind m (fun x => k))
  (at level 61, m at next level, right associativity).

(** [a < b] on numbers. *)
Definition Qltb (a b : Q) : bool :=
  (Qnum a * QDen b <? Qnum b * QDen a)%Z.

(** [a >= b] on numbers. *)
Definition Qgeb (a b : Q) : bool := Qle_bool b a.

(** [a / b] (true division): raises on a zero divisor. *)
Definition py_truediv (a b : Q) : result Q :=
  if Qeq_bool b 0 then Raise ZeroDivisionError else Ok (a / b).

(** Truth value of what [reduceAnd] returns: [None] is falsy. *)
Definition truthy (v : option bool) : bool :=
  match v with
  | Some b => b
  | None => false
  end.

(** ** Settings *)

Definition infoThresholdVolts : Q := 2.
Definition noticeThresholdVolts : Q := 212 # 100.
Definition warnThresholdVolts : Q := 22 # 10.

Definition acPowerOn : bool := false.
Definition acPowerOff : bool := negb acPowerOn.

(** ** Queue *)

Section QueueDef.

Variable A : Type.

Record Queue : Type := mkQueue {
  max : option Z;
  store : list A
}.

Definition Queue_init (m : option Z) : Queue := mkQueue m [].

Definition Queue_len (self : Queue) : Z := Z.of_nat (List.length (store self)).

(** [popleft]: [value = self.store[0]; del self.store[0]; return value]. *)
Definition popleft (self : Queue) : result (A * Queue) :=
  match store self with
  | [] => Raise IndexError
  | value :: rest => Ok (value, mkQueue (max self) rest)
  end.

(** The loop of [append]:
    [while True: self.popleft(); if len(self) <= neededLen: break].
    Each iteration removes the head, so the recursion is on the store. *)
Fixpoint popleft_loop (neededLen : Z) (st : list A) : result (list A) :=
  match st with
  | [] => Raise IndexError
  | _ :: rest =>
      if (Z.of_nat (List.length rest) <=? neededLen)%Z then Ok rest
      else popleft_loop neededLen rest
  end.

Definition append (self : Queue) (newElem : A) : result Queue :=
  st <- match max self with
        | Some m =>
            let neededLen := (m - 1)%Z in
            if (Queue_len self >? neededLen)%Z
            then popleft_loop neededLen (store self)
            else Ok (store self)
        | None => Ok (store self)
        end ;;
  Ok (mkQueue (max self) (st ++ [newElem])).

(** Appending a sequence of elements one at a time. *)
Fixpoint append_all (self : Queue) (elems : list A) : result Queue :=
  match elems with
  | [] => Ok self
  | x :: rest => q <- append self x ;; append_all q rest
  end.

(** The stores seen after each single append of a sequence. *)
Fixpoint append_trace (self : Queue) (elems : list A) : result (list (list A)) :=
  match elems with
  | [] => Ok []
  | x :: rest =>
      q <- append self x ;;
      tr <- append_trace q rest ;;
      Ok (store q :: tr)
  end.

End QueueDef.

Arguments mkQueue {A} max store.
Arguments max {A} q.
Arguments store {A} q.
Arguments Queue_init {A} m.
Arguments Queue_len {A} self.
Arguments popleft {A} self.
Arguments popleft_loop {A} neededLen st.
Arguments append {A} self newElem.
Arguments append_all {A} self elems.
Arguments append_trace {A} self elems.

(** ** avg *)

(** [sum = 0; for index, value in enumerate(iter): sum += value]. *)
Definition sum_loop (values : list Q) : Q :=
  fold_left (fun sum value => sum + value) values 0.

Definition avg (iter : Queue Q) : result Q :=
  py_truediv (sum_loop (store iter)) (inject_Z (Queue_len iter)).

(** [getVoltage]: [(pin.value * 3.3) / 65536]. *)
Definition getVoltage (pin_value : Z) : Q :=
  (inject_Z pin_value * (33 # 10)) / 65536.

(** ** wheel, colors *)

(** [wheel(pos)]: the colour triple for a position 0..255. *)
Definition wheel (pos : Z) : list Z :=
  if (pos <? 0)%Z then [0; 0; 0]%Z
  else if (pos >? 255)%Z then [0; 0; 0]%Z
  else if (pos <? 85)%Z then [pos * 3; 255 - pos * 3; 0]%Z
  else if (pos <? 170)%Z then
    let pos := (pos - 85)%Z in [255 - pos * 3; 0; pos * 3]%Z
  else
    let pos := (pos - 170)%Z in [0; pos * 3; 255 - pos * 3]%Z.

Definition colors (color : string) : Z :=
  if String.eqb color "orange" then 52
  else if String.eqb color "yellow" then 43
  else if String.eqb color "red" then 85
  else if String.eqb color "blue" then 170
  else if String.eqb color "green" then 255
  else 0.

Definition getColorValue (color : string) : list Z := wheel (colors color).

(** The DotStar pixel: its brightness and the colour of [dot[0]]. *)
Record DotStar : Type := mkDotStar {
  brightness : Q;
  pixel : list Z
}.

Definition ledBrightness : Q := 1.

(** ** AcPower *)

Record AcPower : Type := mkAcPower {
  coolOffSeconds : Q;
  powerOffTime : Q;
  switch_value : bool   (* self.switch.value *)
}.

Definition AcPower_init (switch : bool) : AcPower :=
  mkAcPower 60 (-1) switch.

Definition isCoolingOff (now : Q) (self : AcPower) : bool :=
  if Qltb (now - powerOffTime self) (coolOffSeconds self) then true else false.

(** [turnAcOff] returns [self.powerOffTime] and the updated object. *)
Definition turnAcOff (now : Q) (self : AcPower) : Q * AcPower :=
  let self1 :=
    if Bool.eqb (switch_value self) true || Qeq_bool (powerOffTime self) (-1)
    then mkAcPower (coolOffSeconds self) now (switch_value self)
    else self in
  let self2 := mkAcPower (coolOffSeconds self1) (powerOffTime self1) acPowerOff in
  (powerOffTime self2, self2).

Definition turnAcOn (now : Q) (self : AcPower) : AcPower :=
  if negb (isCoolingOff now self)
  then mkAcPower (coolOffSeconds self) (powerOffTime self) acPowerOn
  else self.

(** ** State *)

Record State : Type := mkState {
  state : string;
  infoThreshold : Q;
  noticeThreshold : Q;
  warningThreshold : Q
}.

Definition State_init (infoThreshold noticeThreshold warningThreshold : Q) : State :=
  mkState "normal" infoThreshold noticeThreshold warningThreshold.

Definition getState (self : State) : string := state self.

Definition set_state (self : State) (s : string) : State :=
  mkState s (infoThreshold self) (noticeThreshold self) (warningThreshold self).

(** The four local lists of [applyInputs]. *)
Record votes : Type := mkVotes {
  normal : list bool;
  info : list bool;
  notice : list bool;
  warning : list bool
}.

Definition push (v : votes) (n i o w : bool) : votes :=
  mkVotes (normal v ++ [n]) (info v ++ [i]) (notice v ++ [o]) (warning v ++ [w]).

(** Body of [for input in inputs]: an input matching no test appends nothing. *)
Definition vote (self : State) (v : votes) (input : Q) : votes :=
  if Qltb input (infoThreshold self) then
    push v true false false false
  else if Qgeb input (infoThreshold self) && Qltb input (noticeThreshold self) then
    push v false true false false
  else if Qgeb input (noticeThreshold self) && Qltb input (warningThreshold self) then
    push v false false true false
  else if Qgeb input (warningThreshold self) then
    push v false false false true
  else v.

Definition reduceAnd (results : list bool) : option bool :=
  if (Z.of_nat (List.length results) <? 1)%Z then None
  else Some (fold_left (fun output r => output && r) results true).

Definition applyInputs (self : State) (inputs : list Q) : State :=
  if (Z.of_nat (List.length inputs) <? 1)%Z then self
  else
    let v := fold_left (vote self) inputs (mkVotes [] [] [] []) in
    if truthy (reduceAnd (normal v)) then set_state self "normal"
    else if truthy (reduceAnd (info v)) then set_state self "info"
    else if truthy (reduceAnd (notice v)) then set_state self "notice"
    else if truthy (reduceAnd (warning v)) then set_state self "warning"
    else self.

(** ** Main loop *)

Record System : Type := mkSystem {
  recentLevels : Queue Q;
  acPower : AcPower;
  state_obj : State;     (* the module-level [state] *)
  dot : DotStar
}.

Definition System_init : System :=
  mkSystem (Queue_init (Some 10%Z))
           (AcPower_init acPowerOn)
           (State_init infoThresholdVolts noticeThresholdVolts warnThresholdVolts)
           (mkDotStar 1 [0; 0; 0]%Z).

(** Which arm of the [if]/[elif] chain on [state.getState()] runs. *)
Inductive branch : Type :=
| NormalBranch | InfoBranch | NoticeBranch | WarningBranch | ElseBranch.

Definition dispatch (s : string) : branch :=
  if String.eqb s "normal" then NormalBranch
  else if String.eqb s "info" then InfoBranch
  else if String.eqb s "notice" then NoticeBranch
  else if String.eqb s "warning" then WarningBranch
  else ElseBranch.

(** The arm's effect on the LED (before the final flash-off) and the switch. *)
Definition act (b : branch) (now : Q) (p : AcPower) (d : DotStar) : AcPower * DotStar :=
  match b with
  | NormalBranch => (turnAcOn now p, mkDotStar 0 (pixel d))
  | InfoBranch => (turnAcOn now p, mkDotStar ledBrightness (getColorValue "orange"))
  | NoticeBranch => (turnAcOn now p, mkDotStar ledBrightness (getColorValue "orange"))
  | WarningBranch => (snd (turnAcOff now p), mkDotStar ledBrightness (getColorValue "red"))
  | ElseBranch => (p, mkDotStar ledBrightness (getColorValue "blue"))
  end.

(** One iteration of [while True], for the sampled voltage and the clock. *)
Definition tick (now liquidLevelVolts : Q) (sys : System) : result System :=
  q <- append (recentLevels sys) liquidLevelVolts ;;
  _ <- avg q ;;                                  (* print("Avg: ...") *)
  a <- avg q ;;
  let st := applyInputs (state_obj sys) [liquidLevelVolts; a] in
  let '(p, d) := act (dispatch (getState st)) now (acPower sys) (dot sys) in
  Ok (mkSystem q p st (mkDotStar 0 (pixel d))).

(** Running the loop over a list of (clock, voltage) samples, collecting
    what [print(state.getState())] shows on each iteration. *)
Fixpoint run (sys : System) (samples : list (Q * Q)) : result (list string * System) :=
  match samples with
  | [] => Ok ([], sys)
  | (now, v) :: rest =>
      sys1 <- tick now v sys ;;
      r <- run sys1 rest ;;
      Ok (getState (state_obj sys1) :: fst r, snd r)
  end.

(** States of the whole program that the loop can be in. *)
Inductive reachable : System -> Prop :=
| reachable_init : reachable System_init
| reachable_tick : forall sys now v sys1,
    reachable sys -> tick now v sys = Ok sys1 -> reachable sys1.

(** ** The tiers and their voltage ranges *)

Inductive Tier : Type := Normal | Info | Notice | Warning.

Definition tier_name (t : Tier) : string :=
  match t with
  | Normal => "normal"
  | Info => "info"
  | Notice => "notice"
  | Warning => "warning"
  end.

(** The half-open range of a tier, for the thresholds of a classifier. *)
Definition in_range (self : State) (t : Tier) (x : Q) : Prop :=
  match t with
  | Normal => x < infoThreshold self
  | Info => infoThreshold self <= x /\ x < noticeThreshold self
  | Notice => noticeThreshold self <= x /\ x < warningThreshold self
  | Warning => warningThreshold self <= x
  end.

(** The last [n] elements of a list. *)
Definition lastn {A : Type} (n : nat) (l : list A) : list A :=
  skipn (List.length l - n) l.

Definition Tier_eqb (t u : Tier) : bool :=
  match t, u with
  | Normal, Normal | Info, Info | Notice, Notice | Warning, Warning => true
  | _, _ => false
  end.

(** The arm of the [if]/[elif] chain of [applyInputs] that a number takes:
    each test is reached only when the tests before it failed. *)
Definition tier_of (self : State) (input : Q) : Tier :=
  if Qltb input (infoThreshold self) then Normal
  else if Qltb input (noticeThreshold self) then Info
  else if Qltb input (warningThreshold self) then Notice
  else Warning.

(** All inputs take the arm of tier [t]. *)
Definition all_in (self : State) (t : Tier) (inputs : list Q) : bool :=
  forallb (fun x => Tier_eqb (tier_of self x) t) inputs.

(** The capacity a [Queue] needs for [append] never to pop an empty store. *)
Definition capacity_ok {A : Type} (q : Queue A) : Prop :=
  forall N, max q = Some N -> (1 <= N)%Z.

(** The tiers printed by a run. *)
Definition tiers (r : result (list string * System)) : result (list string) :=
  x <- r ;; Ok (fst x).

Definition valid_state (s : string) : Prop :=
  In s ["normal"; "info"; "notice"; "warning"]%string.

(** The colours the loop can leave in the pixel. *)
Definition pixel_ok (px : list Z) : Prop :=
  px = [0; 0; 0]%Z \/ px = getColorValue "orange" \/ px = getColorValue "red".

(** The tier of a raw 16-bit sample, in counts of the converter: the
    smallest counts whose voltage reaches 2.00, 2.12 and 2.20. *)
Definition pin_tier (pin_value : Z) : Tier :=
  if (pin_value <? 39719)%Z then Normal
  else if (pin_value <? 42102)%Z then Info
  else if (pin_value <? 43691)%Z then Notice
  else Warning.

(** * Properties *)

(** ** Numbers *)

Lemma Qltb_lt (a b : Q) : Qltb a b = true <-> a < b.
Proof. unfold Qltb, Qlt. apply Z.ltb_lt. Qed.

Lemma Qltb_ge (a b : Q) : Qltb a b = false <-> b <= a.
Proof. unfold Qltb, Qle. apply Z.ltb_ge. Qed.

Lemma Qgeb_ge (a b : Q) : Qgeb a b = true <-> b <= a.
Proof. unfold Qgeb. apply Qle_bool_iff. Qed.

(** ** Queue *)

Section QueueFacts.

Context {A : Type}.
Implicit Types (l s : list A) (q : Queue A).

Lemma lastn_length (n : nat) l : List.length (lastn n l) = Nat.min n (List.length l).
Proof. unfold lastn. rewrite length_skipn. lia. Qed.

Lemma lastn_all (n : nat) l : (List.length l <= n)%nat -> lastn n l = l.
Proof.
  intros H. unfold lastn.
  replace (List.length l - n)%nat with 0%nat by lia. reflexivity.
Qed.

Lemma lastn_snoc (n : nat) l (x : A) :
  (1 <= n)%nat -> lastn n (l ++ [x]) = lastn (n - 1) l ++ [x].
Proof.
  intros Hn. unfold lastn. rewrite length_app, skipn_app. simpl.
  replace (List.length l + 1 - n)%nat with (List.length l - (n - 1))%nat by lia.
  replace (List.length l - (n - 1) - List.length l)%nat with 0%nat by lia.
  reflexivity.
Qed.

(** The loop pops heads until [neededLen] elements are left. *)
Lemma popleft_loop_lastn (neededLen : Z) s :
  (0 <= neededLen < Z.of_nat (List.length s))%Z ->
  popleft_loop neededLen s = Ok (lastn (Z.to_nat neededLen) s).
Proof.
  induction s as [|h rest IH]; intros Hlen; simpl in Hlen; [lia|].
  simpl. destruct (Z.of_nat (List.length rest) <=? neededLen)%Z eqn:E.
  - apply Z.leb_le in E. unfold lastn. simpl List.length.
    replace (S (List.length rest) - Z.to_nat neededLen)%nat with 1%nat by lia.
    reflexivity.
  - apply Z.leb_gt in E. rewrite IH by lia. f_equal.
    unfold lastn. simpl List.length.
    replace (S (List.length rest) - Z.to_nat neededLen)%nat
      with (S (List.length rest - Z.to_nat neededLen)) by lia.
    reflexivity.
Qed.

(** With a capacity of at least one, [append] keeps the newest
    [N - 1] stored elements and puts the new one last. *)
Lemma append_bounded (N : Z) q (x : A) :
  max q = Some N -> (1 <= N)%Z ->
  append q x = Ok (mkQueue (Some N) (lastn (Z.to_nat N) (store q ++ [x]))).
Proof.
  intros Hmax HN. unfold append, Queue_len. rewrite Hmax.
  rewrite lastn_snoc by lia.
  replace (Z.to_nat N - 1)%nat with (Z.to_nat (N - 1)) by lia.
  destruct (Z.of_nat (List.length (store q)) >? N - 1)%Z eqn:E.
  - rewrite Z.gtb_gt in E. rewrite popleft_loop_lastn by lia. reflexivity.
  - rewrite Z.gtb_ltb, Z.ltb_ge in E. rewrite lastn_all by lia. reflexivity.
Qed.

Lemma append_unbounded q (x : A) :
  max q = None -> append q x = Ok (mkQueue None (store q ++ [x])).
Proof. intros Hmax. unfold append. rewrite Hmax. reflexivity. Qed.

(** [append] returns, and the new element is the last one stored. *)
Lemma append_ok q (x : A) :
  capacity_ok q ->
  exists st, append q x = Ok (mkQueue (max q) (st ++ [x])).
Proof.
  intros Hcap. destruct (max q) as [N|] eqn:Hmax.
  - specialize (Hcap N Hmax).
    rewrite (append_bounded N) by assumption.
    rewrite lastn_snoc by lia. eauto.
  - rewrite append_unbounded by assumption. eauto.
Qed.

Lemma lastn_app_lastn (n : nat) l s :
  lastn n (lastn n l ++ s) = lastn n (l ++ s).
Proof.
  assert (E : lastn n l ++ s = skipn (List.length l - n) (l ++ s)).
  { unfold lastn. rewrite skipn_app.
    replace (List.length l - n - List.length l)%nat with 0%nat by lia.
    reflexivity. }
  rewrite E. unfold lastn. rewrite length_skipn, skipn_skipn, length_app.
  f_equal. lia.
Qed.

Lemma append_all_bounded (N : Z) (elems : list A) : forall q,
  max q = Some N -> (1 <= N)%Z ->
  (List.length (store q) <= Z.to_nat N)%nat ->
  append_all q elems =
  Ok (mkQueue (Some N) (lastn (Z.to_nat N) (store q ++ elems))).
Proof.
  induction elems as [|x rest IH]; intros q Hmax HN Hlen; simpl.
  - rewrite app_nil_r, lastn_all by assumption.
    destruct q; simpl in *; congruence.
  - rewrite (append_bounded N) by assumption. simpl.
    rewrite IH; simpl; trivial.
    + rewrite lastn_app_lastn, <- app_assoc. reflexivity.
    + rewrite lastn_length. lia.
Qed.

(** Every store seen while appending stays within the capacity. *)
Lemma append_trace_bounded (N : Z) (elems : list A) : forall q,
  max q = Some N -> (1 <= N)%Z ->
  exists tr, append_trace q elems = Ok tr /\
             List.length tr = List.length elems /\
             Forall (fun st => (List.length st <= Z.to_nat N)%nat) tr.
Proof.
  induction elems as [|x rest IH]; intros q Hmax HN; simpl.
  - exists []. auto.
  - rewrite (append_bounded N) by assumption. simpl.
    destruct (IH (mkQueue (Some N) (lastn (Z.to_nat N) (store q ++ [x]))))
      as (tr & Htr & Hlen & Hall); trivial.
    rewrite Htr. simpl. eexists. split; [reflexivity|]. split.
    + simpl. congruence.
    + constructor; [|assumption]. rewrite lastn_length. lia.
Qed.

End QueueFacts.

(** ** Classifier *)

Section ClassifierFacts.

Variable self : State.

(** A number always takes one arm, and [vote] records it one-hot. *)
Lemma vote_tier_of (v : votes) (x : Q) :
  vote self v x =
  push v (Tier_eqb (tier_of self x) Normal) (Tier_eqb (tier_of self x) Info)
         (Tier_eqb (tier_of self x) Notice) (Tier_eqb (tier_of self x) Warning).
Proof.
  unfold vote, tier_of.
  destruct (Qltb x (infoThreshold self)) eqn:E1; [reflexivity|].
  apply Qltb_ge, Qgeb_ge in E1. rewrite E1. simpl.
  destruct (Qltb x (noticeThreshold self)) eqn:E2; [reflexivity|].
  apply Qltb_ge, Qgeb_ge in E2. rewrite E2. simpl.
  destruct (Qltb x (warningThreshold self)) eqn:E3; [reflexivity|].
  apply Qltb_ge, Qgeb_ge in E3. rewrite E3. reflexivity.
Qed.

Lemma fold_vote (inputs : list Q) : forall v,
  fold_left (vote self) inputs v =
  mkVotes (normal v ++ map (fun x => Tier_eqb (tier_of self x) Normal) inputs)
          (info v ++ map (fun x => Tier_eqb (tier_of self x) Info) inputs)
          (notice v ++ map (fun x => Tier_eqb (tier_of self x) Notice) inputs)
          (warning v ++ map (fun x => Tier_eqb (tier_of self x) Warning) inputs).
Proof.
  induction inputs as [|x rest IH]; intros v; simpl.
  - rewrite !app_nil_r. destruct v; reflexivity.
  - rewrite IH, vote_tier_of. unfold push. simpl.
    rewrite <- !app_assoc. reflexivity.
Qed.

Lemma fold_and (results : list bool) : forall output,
  fold_left (fun output r => output && r) results output =
  output && forallb (fun r => r) results.
Proof.
  induction results as [|r rest IH]; intros output; simpl.
  - now rewrite andb_true_r.
  - rewrite IH. now rewrite andb_assoc.
Qed.

Lemma truthy_reduceAnd (f : Q -> bool) (x : Q) (rest : list Q) :
  truthy (reduceAnd (map f (x :: rest))) = forallb f (x :: rest).
Proof.
  unfold reduceAnd.
  replace (Z.of_nat (List.length (map f (x :: rest))) <? 1)%Z with false
    by (symmetry; apply Z.ltb_ge; simpl List.length; lia).
  unfold truthy. rewrite fold_and. simpl.
  f_equal. induction rest as [|y r IH]; simpl; [reflexivity|].
  now rewrite IH.
Qed.

(** [applyInputs] on at least one input: the first tier, in the order
    normal, info, notice, warning, taken by every input is stored. *)
Lemma applyInputs_nonempty (x : Q) (rest : list Q) :
  applyInputs self (x :: rest) =
  if all_in self Normal (x :: rest) then set_state self "normal"
  else if all_in self Info (x :: rest) then set_state self "info"
  else if all_in self Notice (x :: rest) then set_state self "notice"
  else if all_in self Warning (x :: rest) then set_state self "warning"
  else self.
Proof.
  unfold applyInputs.
  replace (Z.of_nat (List.length (x :: rest)) <? 1)%Z with false
    by (symmetry; apply Z.ltb_ge; simpl List.length; lia).
  rewrite fold_vote. cbn [normal info notice warning app].
  rewrite !truthy_reduceAnd. reflexivity.
Qed.

(** The arm a number takes is a tier whose range contains it. *)
Lemma tier_of_in_range (x : Q) : in_range self (tier_of self x) x.
Proof.
  unfold tier_of.
  destruct (Qltb x (infoThreshold self)) eqn:E1.
  { apply Qltb_lt in E1. exact E1. }
  destruct (Qltb x (noticeThreshold self)) eqn:E2.
  { apply Qltb_ge in E1. apply Qltb_lt in E2. split; assumption. }
  destruct (Qltb x (warningThreshold self)) eqn:E3.
  { apply Qltb_ge in E2. apply Qltb_lt in E3. split; assumption. }
  apply Qltb_ge in E3. exact E3.
Qed.

(** For ordered thresholds the ranges are disjoint. *)
Lemma in_range_tier_of (t : Tier) (x : Q) :
  infoThreshold self <= noticeThreshold self ->
  noticeThreshold self <= warningThreshold self ->
  in_range self t x -> tier_of self x = t.
Proof.
  intros Hin Hnw Hr. unfold tier_of.
  destruct (Qltb x (infoThreshold self)) eqn:E1;
    [apply Qltb_lt in E1 | apply Qltb_ge in E1];
  (destruct (Qltb x (noticeThreshold self)) eqn:E2;
    [apply Qltb_lt in E2 | apply Qltb_ge in E2]);
  (destruct (Qltb x (warningThreshold self)) eqn:E3;
    [apply Qltb_lt in E3 | apply Qltb_ge in E3]);
  destruct t; simpl in Hr; try reflexivity; exfalso; lra.
Qed.

Lemma all_in_Forall (t : Tier) (inputs : list Q) :
  all_in self t inputs = true -> Forall (in_range self t) inputs.
Proof.
  unfold all_in. rewrite forallb_forall, Forall_forall.
  intros H x Hx. specialize (H x Hx).
  pose proof (tier_of_in_range x) as Hr.
  destruct (tier_of self x), t; simpl in H; try discriminate; exact Hr.
Qed.

Lemma applyInputs_valid (inputs : list Q) :
  valid_state (getState self) -> valid_state (getState (applyInputs self inputs)).
Proof.
  intros Hv. destruct inputs as [|x rest]; [exact Hv|].
  rewrite applyInputs_nonempty. unfold valid_state.
  repeat match goal with
         | |- context [if ?b then _ else _] => destruct b
         end; simpl; auto 6.
Qed.

End ClassifierFacts.

(** ** avg and the main loop *)

Lemma avg_empty (q : Queue Q) : store q = [] -> avg q = Raise ZeroDivisionError.
Proof. intros H. unfold avg, Queue_len. rewrite H. reflexivity. Qed.

Lemma avg_nonempty (q : Queue Q) :
  store q <> [] ->
  avg q = Ok (sum_loop (store q) / inject_Z (Queue_len q)).
Proof.
  intros H. unfold avg, py_truediv, Queue_len.
  destruct (store q) as [|x rest]; [congruence|].
  destruct (Qeq_bool _ 0) eqn:E; [|reflexivity].
  apply Qeq_bool_eq in E. unfold Qeq in E. simpl in E. lia.
Qed.

(** What one iteration computes, when it returns. *)
Lemma tick_inv (now v : Q) (sys sys1 : System) :
  tick now v sys = Ok sys1 ->
  exists q a,
    append (recentLevels sys) v = Ok q /\ avg q = Ok a /\
    recentLevels sys1 = q /\
    state_obj sys1 = applyInputs (state_obj sys) [v; a] /\
    acPower sys1 =
      fst (act (dispatch (getState (state_obj sys1))) now (acPower sys) (dot sys)) /\
    pixel (dot sys1) =
      pixel (snd (act (dispatch (getState (state_obj sys1))) now (acPower sys) (dot sys))).
Proof.
  unfold tick. intros H.
  destruct (append (recentLevels sys) v) as [q|e] eqn:Happ; [|discriminate].
  simpl in H. destruct (avg q) as [a|e] eqn:Havg; [|discriminate]. simpl in H.
  destruct (act _ now (acPower sys) (dot sys)) as [p d] eqn:Hact.
  injection H as <-. simpl. rewrite Hact. exists q, a.
  repeat split; trivial.
Qed.

(** With a capacity of at least one the iteration returns: after the
    append the buffer holds a reading, so [avg] divides by its length. *)
Lemma tick_total (now v : Q) (sys : System) :
  capacity_ok (recentLevels sys) ->
  exists q a sys1,
    append (recentLevels sys) v = Ok q /\ store q <> [] /\
    max q = max (recentLevels sys) /\
    avg q = Ok a /\ a = sum_loop (store q) / inject_Z (Queue_len q) /\
    tick now v sys = Ok sys1.
Proof.
  intros Hcap. destruct (append_ok (recentLevels sys) v Hcap) as [st Happ].
  assert (Hne : st ++ [v] <> []) by (destruct st; discriminate).
  pose proof (avg_nonempty (mkQueue (max (recentLevels sys)) (st ++ [v])) Hne) as Havg.
  unfold tick. rewrite Happ. simpl bind. rewrite Havg. simpl bind.
  destruct (act _ now (acPower sys) (dot sys)) as [p d].
  exists (mkQueue (max (recentLevels sys)) (st ++ [v])).
  eexists. eexists.
  split; [reflexivity|]. split; [exact Hne|]. split; [reflexivity|].
  split; [exact Havg|]. split; reflexivity.
Qed.

Lemma turnAcOff_switch (now : Q) (p : AcPower) :
  switch_value (snd (turnAcOff now p)) = acPowerOff.
Proof. reflexivity. Qed.

Lemma turnAcOn_cooling (now : Q) (p : AcPower) :
  isCoolingOff now p = true -> turnAcOn now p = p.
Proof. intros H. unfold turnAcOn. rewrite H. reflexivity. Qed.

Lemma dispatch_valid (s : string) : valid_state s -> dispatch s <> ElseBranch.
Proof.
  unfold valid_state. simpl.
  intros [<-|[<-|[<-|[<-|[]]]]]; discriminate.
Qed.

Lemma dispatch_warning (s : string) : dispatch s = WarningBranch <-> s = "warning"%string.
Proof.
  unfold dispatch. split.
  - destruct (String.eqb s "normal"); [discriminate|].
    destruct (String.eqb s "info"); [discriminate|].
    destruct (String.eqb s "notice"); [discriminate|].
    destruct (String.eqb s "warning") eqn:E; [|discriminate].
    intros _. now apply String.eqb_eq.
  - intros ->. reflexivity.
Qed.

Lemma reachable_inv (sys : System) :
  reachable sys ->
  valid_state (getState (state_obj sys)) /\ pixel_ok (pixel (dot sys)).
Proof.
  induction 1 as [|sys now v sys1 Hr [IHv IHp] Htick].
  - split; [left; reflexivity | left; reflexivity].
  - destruct (tick_inv _ _ _ _ Htick) as (q & a & _ & _ & _ & Hst & _ & Hpx).
    assert (Hv : valid_state (getState (state_obj sys1))).
    { rewrite Hst. now apply applyInputs_valid. }
    split; [exact Hv|]. rewrite Hpx.
    pose proof (dispatch_valid _ Hv) as Hd.
    destruct (dispatch (getState (state_obj sys1))); simpl;
      unfold pixel_ok; auto; congruence.
Qed.

(** * The claims *)

(** C1. A second [turnAcOff] on a switch that is already off should keep the
    timestamp of the first call.  The modelled code does the opposite:
    [acPowerOff] is [True], so the test [self.switch.value is True] holds
    exactly when the switch is already off, and the second call, made at
    time 5 after a first call at time 0, overwrites the timestamp 0 by 5. *)
Theorem turnAcOff_twice_resets_timestamp :
  let p1 := snd (turnAcOff 0 (AcPower_init acPowerOn)) in
  switch_value p1 = acPowerOff /\
  powerOffTime p1 = 0 /\
  turnAcOff 5 p1 = (5, mkAcPower 60 5 acPowerOff).
Proof. vm_compute. repeat split. Qed.

(** C2. [isCoolingOff] should be false as long as [turnAcOff] was never
    called.  On a fresh object [powerOffTime] is the sentinel -1, which the
    test uses as a time: at clock 10 it computes 10 - (-1) < 60 and answers
    true. *)
Theorem isCoolingOff_before_any_turnAcOff :
  powerOffTime (AcPower_init acPowerOn) = -1 /\
  isCoolingOff 10 (AcPower_init acPowerOn) = true /\
  turnAcOn 10 (AcPower_init acPowerOff) = AcPower_init acPowerOff.
Proof. vm_compute. repeat split. Qed.

(** C3, as stated, fails: on the readings 1.5, 1.5, 2.25, 2.25 the fourth
    iteration does not print "warning". *)
Lemma end_to_end_fourth_tick_not_warning :
  tiers (run System_init [(0, 1.5); (1, 1.5); (2, 2.25); (3, 2.25)])
  <> Ok ["normal"; "normal"; "normal"; "warning"]%string.
Proof. vm_compute. discriminate. Qed.

(** C3, amended.  From the initial program state, whatever the clock shows,
    the readings 1.5, 1.5, 2.25, 2.25 print normal four times: the averages
    fed to the classifier on the third and fourth iteration are 1.75 and
    1.875, both in the normal range, while the reading 2.25 is in the
    warning range, so both iterations keep the stored tier. *)
Theorem end_to_end_tiers (t1 t2 t3 t4 : Q) :
  tiers (run System_init [(t1, 1.5); (t2, 1.5); (t3, 2.25); (t4, 2.25)])
  = Ok ["normal"; "normal"; "normal"; "normal"]%string /\
  (q <- append_all (Queue_init (Some 10%Z)) [1.5; 1.5; 2.25] ;;
   a <- avg q ;; Ok (Qred a)) = Ok (7 # 4) /\
  (q <- append_all (Queue_init (Some 10%Z)) [1.5; 1.5; 2.25; 2.25] ;;
   a <- avg q ;; Ok (Qred a)) = Ok (15 # 8) /\
  tier_of (state_obj System_init) (7 # 4) = Normal /\
  tier_of (state_obj System_init) (15 # 8) = Normal /\
  tier_of (state_obj System_init) 2.25 = Warning.
Proof. vm_compute. repeat split. Qed.




(** C5. When no tier's range contains every input, [applyInputs] returns
    the classifier unchanged, whatever tier it stored; and without inputs
    it returns the classifier unchanged. *)
Theorem applyInputs_disagreement_keeps_state (self : State) (inputs : list Q)
  (Hdis : ~ exists t, Forall (in_range self t) inputs) :
  applyInputs self inputs = self /\ applyInputs self [] = self.
Proof.
  split; [|reflexivity].
  destruct inputs as [|x rest]; [reflexivity|].
  rewrite applyInputs_nonempty.
  repeat match goal with
         | |- context [if all_in self ?t ?l then _ else _] =>
             destruct (all_in self t l) eqn:?
         end; trivial;
  exfalso; apply Hdis; eexists; apply all_in_Forall; eassumption.
Qed.

Lemma applyInputs_disagreement_witness :
  let self := mkState "info" infoThresholdVolts noticeThresholdVolts warnThresholdVolts in
  applyInputs self [2.25; 2.15] = self /\ applyInputs self [] = self.
Proof.
  apply (applyInputs_disagreement_keeps_state
           (mkState "info" infoThresholdVolts noticeThresholdVolts warnThresholdVolts)
           [2.25; 2.15]).
  intros [t H]. inversion H as [|a l H1 H2]; subst.
  inversion H2 as [|b l' H3 H4]; subst.
  destruct t; simpl in H1, H3; unfold Qlt, Qle in *; simpl in *; lia.
Defined.

(** C6. For ordered thresholds and any stored tier, [applyInputs(x, x)]
    stores the tier whose range contains [x], and that tier is the only one
    whose range contains [x]; with the thresholds 2.00, 2.12 and 2.20 the
    values 1.50, 2.05, 2.15 and 2.25 give normal, info, notice and
    warning. *)
Theorem applyInputs_same_value :
  (forall (self : State) (x : Q),
      infoThreshold self <= noticeThreshold self ->
      noticeThreshold self <= warningThreshold self ->
      (exists t, in_range self t x) /\
      (forall t, in_range self t x <->
                 getState (applyInputs self [x; x]) = tier_name t)) /\
  (forall prior : string,
      let self := mkState prior 2 2.12 2.20 in
      getState (applyInputs self [1.50; 1.50]) = "normal"%string /\
      getState (applyInputs self [2.05; 2.05]) = "info"%string /\
      getState (applyInputs self [2.15; 2.15]) = "notice"%string /\
      getState (applyInputs self [2.25; 2.25]) = "warning"%string).
Proof.
  split; [|intros prior; vm_compute; repeat split].
  intros self x Hin Hnw.
  split; [exists (tier_of self x); apply tier_of_in_range|].
  assert (Hres : getState (applyInputs self [x; x]) = tier_name (tier_of self x)).
  { rewrite applyInputs_nonempty. unfold all_in. simpl.
    destruct (tier_of self x); reflexivity. }
  intros t. rewrite Hres. split.
  - intros Hr. now rewrite (in_range_tier_of self t x Hin Hnw Hr).
  - intros Hn.
    assert (Ht : tier_of self x = t)
      by (destruct (tier_of self x), t; simpl in Hn; congruence).
    rewrite <- Ht. apply tier_of_in_range.
Qed.

Lemma applyInputs_same_value_witness :
  let self := State_init infoThresholdVolts noticeThresholdVolts warnThresholdVolts in
  (exists t, in_range self t 2.05) /\
  (forall t, in_range self t 2.05 <->
             getState (applyInputs self [2.05; 2.05]) = tier_name t).
Proof.
  apply (proj1 applyInputs_same_value
           (State_init infoThresholdVolts noticeThresholdVolts warnThresholdVolts)
           2.05).
  - unfold Qle. simpl. lia.
  - unfold Qle. simpl. lia.
Defined.

(** C7. For a capacity N of at least one, appending more than N readings
    one at a time to an empty [Queue(max=N)] returns, and leaves exactly
    the last N readings in their order: the readings are the evicted ones
    followed by the stored ones.  After each single append the store holds
    at most N elements. *)
Theorem append_keeps_last_N (A : Type) (N : Z) (readings : list A) :
  (1 <= N)%Z ->
  (N < Z.of_nat (List.length readings))%Z ->
  exists q evicted tr,
    append_all (Queue_init (Some N)) readings = Ok q /\
    store q = lastn (Z.to_nat N) readings /\
    readings = evicted ++ store q /\
    List.length (store q) = Z.to_nat N /\
    append_trace (Queue_init (Some N)) readings = Ok tr /\
    List.length tr = List.length readings /\
    Forall (fun st => (List.length st <= Z.to_nat N)%nat) tr.
Proof.
  intros HN HM.
  destruct (append_trace_bounded N readings (Queue_init (Some N)) eq_refl HN)
    as (tr & Htr & Hlen & Hall).
  exists (mkQueue (Some N) (lastn (Z.to_nat N) readings)),
         (firstn (List.length readings - Z.to_nat N) readings), tr.
  split.
  { rewrite (append_all_bounded N) by (simpl; trivial; lia). reflexivity. }
  simpl. split; [reflexivity|]. split.
  { unfold lastn. now rewrite firstn_skipn. }
  split; [rewrite lastn_length; lia|]. auto.
Qed.

Lemma append_keeps_last_N_witness :
  exists q evicted tr,
    append_all (Queue_init (Some 3%Z)) [1; 2; 3; 4; 5] = Ok q /\
    store q = lastn 3 [1; 2; 3; 4; 5] /\
    [1; 2; 3; 4; 5] = evicted ++ store q /\
    List.length (store q) = 3%nat /\
    append_trace (Queue_init (Some 3%Z)) [1; 2; 3; 4; 5] = Ok tr /\
    List.length tr = 5%nat /\
    Forall (fun st => (List.length st <= 3)%nat) tr.
Proof.
  apply (append_keeps_last_N Q 3 [1; 2; 3; 4; 5]); simpl; lia.
Defined.

(** C8. With a cool-off of 60 seconds, [turnAcOff] at clock 0 (on an object
    that never recorded a power-off, or recorded one at clock 0, or whose
    switch is already off) leaves the switch off and the timestamp 0; then
    [turnAcOn] at clock 30 changes nothing, and [turnAcOn] at clock 61 sets
    the switch to the on value. *)
Theorem cool_off_scenario (p : AcPower) :
  coolOffSeconds p = 60 ->
  powerOffTime p = -1 \/ powerOffTime p = 0 \/ switch_value p = true ->
  let p1 := snd (turnAcOff 0 p) in
  switch_value p1 = acPowerOff /\
  powerOffTime p1 = 0 /\
  isCoolingOff 30 p1 = true /\
  turnAcOn 30 p1 = p1 /\
  isCoolingOff 61 (turnAcOn 30 p1) = false /\
  switch_value (turnAcOn 61 (turnAcOn 30 p1)) = acPowerOn.
Proof.
  destruct p as [c t sw]. simpl. intros -> [-> | [-> | ->]];
    try destruct sw; vm_compute; repeat split.
Qed.

Lemma cool_off_scenario_witness :
  let p1 := snd (turnAcOff 0 (AcPower_init acPowerOn)) in
  switch_value p1 = acPowerOff /\
  powerOffTime p1 = 0 /\
  isCoolingOff 30 p1 = true /\
  turnAcOn 30 p1 = p1 /\
  isCoolingOff 61 (turnAcOn 30 p1) = false /\
  switch_value (turnAcOn 61 (turnAcOn 30 p1)) = acPowerOn.
Proof.
  apply (cool_off_scenario (AcPower_init acPowerOn)).
  - reflexivity.
  - left. reflexivity.
Defined.

(** C9. An iteration of the loop (buffer capacity at least one) returns,
    and when it classifies the tier as warning the switch is at the off
    value afterwards, whatever the cool-off state was; in an iteration that
    does not classify as warning, an active cool-off leaves the power
    object as it was, so the cool-off only ever holds back a turn-on. *)
Theorem warning_tick_switches_off (now v : Q) (sys : System) :
  capacity_ok (recentLevels sys) ->
  exists sys1,
    tick now v sys = Ok sys1 /\
    (getState (state_obj sys1) = "warning"%string ->
     switch_value (acPower sys1) = acPowerOff) /\
    (getState (state_obj sys1) <> "warning"%string ->
     isCoolingOff now (acPower sys) = true ->
     acPower sys1 = acPower sys).
Proof.
  intros Hcap.
  destruct (tick_total now v sys Hcap) as (q & a & sys1 & _ & _ & _ & _ & _ & Ht).
  exists sys1. split; [exact Ht|].
  destruct (tick_inv _ _ _ _ Ht) as (_ & _ & _ & _ & _ & _ & Hp & _).
  rewrite Hp. split.
  - intros Hw. apply dispatch_warning in Hw. rewrite Hw. apply turnAcOff_switch.
  - intros Hnw Hcool.
    destruct (dispatch (getState (state_obj sys1))) eqn:Hd; simpl;
      try (now apply turnAcOn_cooling); trivial.
    apply dispatch_warning in Hd. contradiction.
Qed.

Lemma warning_tick_switches_off_witness :
  exists sys1,
    tick 0 2.25 System_init = Ok sys1 /\
    (getState (state_obj sys1) = "warning"%string ->
     switch_value (acPower sys1) = acPowerOff) /\
    (getState (state_obj sys1) <> "warning"%string ->
     isCoolingOff 0 (acPower System_init) = true ->
     acPower sys1 = acPower System_init).
Proof.
  apply (warning_tick_switches_off 0 2.25 System_init).
  intros N H. simpl in H. injection H as <-. lia.
Defined.

(** C10. In every state the program reaches, the classifier stores one of
    the strings normal, info, notice, warning, and [applyInputs] stores one
    of them again; so the dispatch never takes its final else arm, and the
    pixel never holds the blue colour that arm would set. *)
Theorem state_is_one_of_four (sys : System) :
  reachable sys ->
  valid_state (getState (state_obj sys)) /\
  (forall inputs, valid_state (getState (applyInputs (state_obj sys) inputs))) /\
  dispatch (getState (state_obj sys)) <> ElseBranch /\
  pixel (dot sys) <> getColorValue "blue".
Proof.
  intros Hr. destruct (reachable_inv sys Hr) as [Hv Hpx].
  split; [exact Hv|]. split; [intros inputs; now apply applyInputs_valid|].
  split; [now apply dispatch_valid|].
  destruct Hpx as [-> | [-> | ->]]; vm_compute; discriminate.
Qed.

Lemma state_is_one_of_four_witness :
  valid_state (getState (state_obj System_init)) /\
  (forall inputs, valid_state (getState (applyInputs (state_obj System_init) inputs))) /\
  dispatch (getState (state_obj System_init)) <> ElseBranch /\
  pixel (dot System_init) <> getColorValue "blue".
Proof.
  apply (state_is_one_of_four System_init). apply reachable_init.
Defined.

(** * Further properties of the code *)

(** ** Queue *)

Lemma popleft_loop_negative (A : Type) (neededLen : Z) (st : list A) :
  (neededLen < 0)%Z -> popleft_loop neededLen st = Raise IndexError.
Proof.
  intros Hneg. induction st as [|h rest IH]; simpl; [reflexivity|].
  destruct (Z.of_nat (List.length rest) <=? neededLen)%Z eqn:E; [|exact IH].
  apply Z.leb_le in E. lia.
Qed.

(** X1. A queue built with a capacity of zero or less cannot take an
    element: [append] pops until the store is empty and the next
    [popleft] raises IndexError, whatever the store held. *)
Theorem append_without_capacity (A : Type) (N : Z) (q : Queue A) (x : A) :
  max q = Some N -> (N <= 0)%Z -> append q x = Raise IndexError.
Proof.
  intros Hmax HN. unfold append, Queue_len. rewrite Hmax.
  replace (Z.of_nat (List.length (store q)) >? N - 1)%Z with true
    by (symmetry; apply Z.gtb_gt; lia).
  rewrite popleft_loop_negative by lia. reflexivity.
Qed.

Lemma append_without_capacity_witness :
  append (Queue_init (Some 0%Z)) 1.5 = Raise IndexError.
Proof.
  apply (append_without_capacity Q 0 (Queue_init (Some 0%Z)) 1.5).
  - reflexivity.
  - lia.
Defined.

(** X2. A queue built without a maximum never evicts: appending a
    sequence returns and the store is the old store followed by the whole
    sequence. *)
Theorem append_all_unbounded (A : Type) (elems : list A) (q : Queue A) :
  max q = None ->
  append_all q elems = Ok (mkQueue None (store q ++ elems)).
Proof.
  revert q. induction elems as [|x rest IH]; intros q Hmax; simpl.
  - rewrite app_nil_r. destruct q; simpl in *; congruence.
  - rewrite append_unbounded by assumption. simpl.
    rewrite IH by reflexivity. simpl. now rewrite <- app_assoc.
Qed.

Lemma append_all_unbounded_witness :
  append_all (Queue_init None) [1; 2; 3] = Ok (mkQueue None ([] ++ [1; 2; 3])).
Proof.
  apply (append_all_unbounded Q [1; 2; 3] (Queue_init None)). reflexivity.
Defined.

(** X3. First in, first out: [popleft] on a fresh queue raises IndexError;
    after appending a non-empty sequence to an empty queue of capacity
    N >= 1, [popleft] returns the oldest reading still retained (the
    first of the last N) and leaves the newer ones, in order. *)
Theorem popleft_returns_oldest (A : Type) (N : Z) (readings : list A) :
  (1 <= N)%Z -> readings <> [] ->
  popleft (Queue_init (A:=A) (Some N)) = Raise IndexError /\
  exists q x q1,
    append_all (Queue_init (Some N)) readings = Ok q /\
    popleft q = Ok (x, q1) /\
    x :: store q1 = lastn (Z.to_nat N) readings /\
    max q1 = Some N.
Proof.
  intros HN Hne. split; [reflexivity|].
  rewrite (append_all_bounded N) by (simpl; trivial; lia).
  cbn [Queue_init store app].
  destruct (lastn (Z.to_nat N) readings) as [|x rest] eqn:E.
  - apply (f_equal (@List.length A)) in E. rewrite lastn_length in E.
    destruct readings; [congruence|]. simpl in E. lia.
  - eexists. exists x. eexists. split; [reflexivity|].
    unfold popleft. cbn [store max]. split; [reflexivity|]. split; reflexivity.
Qed.

Lemma popleft_returns_oldest_witness :
  popleft (Queue_init (A:=Q) (Some 3%Z)) = Raise IndexError /\
  exists q x q1,
    append_all (Queue_init (Some 3%Z)) [1; 2; 3; 4; 5] = Ok q /\
    popleft q = Ok (x, q1) /\
    x :: store q1 = lastn 3 [1; 2; 3; 4; 5] /\
    max q1 = Some 3%Z.
Proof.
  apply (popleft_returns_oldest Q 3 [1; 2; 3; 4; 5]).
  - lia.
  - discriminate.
Defined.

(** ** avg, getVoltage, wheel *)





(** X5. [getVoltage] is monotone in the raw sample and maps the 16-bit
    range 0..65535 into the voltages from 0 up to, but excluding, 3.3. *)
Theorem getVoltage_range (p1 p2 : Z) :
  (0 <= p1 <= p2)%Z -> (p2 <= 65535)%Z ->
  0 <= getVoltage p1 /\ getVoltage p1 <= getVoltage p2 /\ getVoltage p2 < 3.3.
Proof.
  intros H1 H2. unfold getVoltage, Qle, Qlt, Qdiv, Qmult, Qinv. simpl. lia.
Qed.

Lemma getVoltage_range_witness :
  0 <= getVoltage 0 /\ getVoltage 0 <= getVoltage 65535 /\ getVoltage 65535 < 3.3.
Proof.
  apply (getVoltage_range 0 65535); lia.
Defined.

(** X6. [wheel] always returns three channel values between 0 and 255;
    for a position from 0 to 255 they add up to 255, and outside that
    range all three are 0. *)
Theorem wheel_channels (pos : Z) :
  exists r g b,
    wheel pos = [r; g; b] /\
    (0 <= r <= 255 /\ 0 <= g <= 255 /\ 0 <= b <= 255)%Z /\
    ((0 <= pos <= 255)%Z -> (r + g + b = 255)%Z) /\
    ((pos < 0 \/ 255 < pos)%Z -> r = 0%Z /\ g = 0%Z /\ b = 0%Z).
Proof.
  unfold wheel.
  destruct (pos <? 0)%Z eqn:E0;
    [apply Z.ltb_lt in E0 | apply Z.ltb_ge in E0].
  { do 3 eexists. split; [reflexivity|]. lia. }
  destruct (pos >? 255)%Z eqn:E1;
    [apply Z.gtb_gt in E1 | rewrite Z.gtb_ltb in E1; apply Z.ltb_ge in E1].
  { do 3 eexists. split; [reflexivity|]. lia. }
  destruct (pos <? 85)%Z eqn:E2;
    [apply Z.ltb_lt in E2 | apply Z.ltb_ge in E2].
  { do 3 eexists. split; [reflexivity|]. lia. }
  destruct (pos <? 170)%Z eqn:E3;
    [apply Z.ltb_lt in E3 | apply Z.ltb_ge in E3];
    do 3 eexists; (split; [reflexivity|]); lia.
Qed.

Lemma wheel_channels_witness :
  exists r g b,
    wheel 52 = [r; g; b] /\
    (0 <= r <= 255 /\ 0 <= g <= 255 /\ 0 <= b <= 255)%Z /\
    ((0 <= 52 <= 255)%Z -> (r + g + b = 255)%Z) /\
    ((52 < 0 \/ 255 < 52)%Z -> r = 0%Z /\ g = 0%Z /\ b = 0%Z).
Proof. apply (wheel_channels 52). Defined.

(** ** AcPower *)

Lemma isCoolingOff_true (now : Q) (p : AcPower) :
  isCoolingOff now p = true <-> now - powerOffTime p < coolOffSeconds p.
Proof.
  unfold isCoolingOff.
  destruct (Qltb (now - powerOffTime p) (coolOffSeconds p)) eqn:E.
  - apply Qltb_lt in E. tauto.
  - apply Qltb_ge in E. split; [discriminate|]. intros H. lra.
Qed.

Lemma isCoolingOff_false (now : Q) (p : AcPower) :
  isCoolingOff now p = false <-> coolOffSeconds p <= now - powerOffTime p.
Proof.
  unfold isCoolingOff.
  destruct (Qltb (now - powerOffTime p) (coolOffSeconds p)) eqn:E.
  - apply Qltb_lt in E. split; [discriminate|]. intros H. lra.
  - apply Qltb_ge in E. tauto.
Qed.

(** X7. Two [turnAcOff] calls in a row: the second call always finds the
    switch at the off value, so it records its own clock value; the
    timestamp kept is that of the last call, whatever the object was. *)
Theorem turnAcOff_twice_keeps_last (p : AcPower) (t1 t2 : Q) :
  turnAcOff t2 (snd (turnAcOff t1 p)) =
  (t2, mkAcPower (coolOffSeconds p) t2 acPowerOff).
Proof.
  destruct p as [c t sw]. unfold turnAcOff. simpl.
  destruct (Bool.eqb sw true || Qeq_bool t (-1)); reflexivity.
Qed.

(** X8. [turnAcOff] on a switch that is on and has an earlier power-off on
    record keeps that old timestamp.  When the old timestamp is at least
    the cool-off period back, the object is not cooling off after the
    call, and a [turnAcOn] at any later clock value switches on again. *)
Theorem turnAcOff_keeps_stale_timestamp (p : AcPower) (now later : Q) :
  switch_value p = acPowerOn ->
  ~ powerOffTime p == -1 ->
  coolOffSeconds p <= now - powerOffTime p ->
  now <= later ->
  let p1 := snd (turnAcOff now p) in
  switch_value p1 = acPowerOff /\
  powerOffTime p1 = powerOffTime p /\
  isCoolingOff later p1 = false /\
  switch_value (turnAcOn later p1) = acPowerOn.
Proof.
  intros Hsw Hrec Hold Hlater.
  assert (E : turnAcOff now p =
              (powerOffTime p,
               mkAcPower (coolOffSeconds p) (powerOffTime p) acPowerOff)).
  { unfold turnAcOff. rewrite Hsw.
    destruct (Qeq_bool (powerOffTime p) (-1)) eqn:Eq.
    - apply Qeq_bool_eq in Eq. contradiction.
    - reflexivity. }
  cbv zeta. rewrite E. cbn [snd switch_value powerOffTime].
  assert (Hc : isCoolingOff later
                 (mkAcPower (coolOffSeconds p) (powerOffTime p) acPowerOff) = false).
  { apply isCoolingOff_false. cbn [coolOffSeconds powerOffTime]. lra. }
  repeat split; trivial.
  unfold turnAcOn. rewrite Hc. reflexivity.
Qed.

Lemma turnAcOff_keeps_stale_timestamp_witness :
  let p1 := snd (turnAcOff 100 (mkAcPower 60 0 acPowerOn)) in
  switch_value p1 = acPowerOff /\
  powerOffTime p1 = powerOffTime (mkAcPower 60 0 acPowerOn) /\
  isCoolingOff 101 p1 = false /\
  switch_value (turnAcOn 101 p1) = acPowerOn.
Proof.
  apply (turnAcOff_keeps_stale_timestamp (mkAcPower 60 0 acPowerOn) 100 101).
  - reflexivity.
  - unfold Qeq. simpl. lia.
  - unfold Qle. simpl. lia.
  - unfold Qle. simpl. lia.
Defined.


(** X10. The cool-off window only closes: when the object is not cooling
    off at some clock value it is not cooling off at any later one, until
    the next [turnAcOff]; and it is never cooling off once the clock has
    reached the recorded time plus the period. *)
Theorem cool_off_expires (p : AcPower) (now later : Q) :
  now <= later ->
  (isCoolingOff now p = false -> isCoolingOff later p = false) /\
  (powerOffTime p + coolOffSeconds p <= later -> isCoolingOff later p = false).
Proof.
  intros Hle. split.
  - rewrite !isCoolingOff_false. intros H. lra.
  - rewrite isCoolingOff_false. intros H. lra.
Qed.

Lemma cool_off_expires_witness :
  (isCoolingOff 61 (mkAcPower 60 0 acPowerOff) = false ->
   isCoolingOff 90 (mkAcPower 60 0 acPowerOff) = false) /\
  (powerOffTime (mkAcPower 60 0 acPowerOff)
   + coolOffSeconds (mkAcPower 60 0 acPowerOff) <= 90 ->
   isCoolingOff 90 (mkAcPower 60 0 acPowerOff) = false).
Proof.
  apply (cool_off_expires (mkAcPower 60 0 acPowerOff) 61 90).
  unfold Qle. simpl. lia.
Defined.

(** X11. A new [AcPower] object, on which [turnAcOff] was never called,
    reports cooling off exactly while the clock is below 59: the initial
    value -1 of the power-off time counts as a power-off one second
    before clock zero. *)
Theorem fresh_object_cools_off_until_59 (switch : bool) (now : Q) :
  isCoolingOff now (AcPower_init switch) = true <-> now < 59.
Proof.
  rewrite isCoolingOff_true. cbn [AcPower_init powerOffTime coolOffSeconds].
  split; intros H; lra.
Qed.

(** ** State *)

Lemma all_in_agree (self : State) (t u : Tier) (x : Q) (rest : list Q) :
  infoThreshold self <= noticeThreshold self ->
  noticeThreshold self <= warningThreshold self ->
  Forall (in_range self t) (x :: rest) ->
  all_in self u (x :: rest) = Tier_eqb t u.
Proof.
  intros Hin Hnw Hall. unfold all_in.
  assert (Heq : forall y, In y (x :: rest) -> tier_of self y = t).
  { intros y Hy. rewrite Forall_forall in Hall.
    apply (in_range_tier_of self t y Hin Hnw). now apply Hall. }
  destruct (Tier_eqb t u) eqn:E.
  - apply forallb_forall. intros y Hy. now rewrite (Heq y Hy).
  - cbn [forallb]. rewrite (Heq x (or_introl eq_refl)), E. reflexivity.
Qed.

Lemma all_in_same_values (self : State) (t : Tier) (l1 l2 : list Q) :
  (forall x, In x l1 <-> In x l2) -> all_in self t l1 = all_in self t l2.
Proof.
  intros Hsame. unfold all_in. apply eq_true_iff_eq.
  rewrite !forallb_forall. split; intros H x Hx; apply H, Hsame, Hx.
Qed.

Lemma all_in_set_state (self : State) (s : string) (t : Tier) (l : list Q) :
  all_in (set_state self s) t l = all_in self t l.
Proof. reflexivity. Qed.

Lemma applyInputs_thresholds (self : State) (inputs : list Q) :
  infoThreshold (applyInputs self inputs) = infoThreshold self /\
  noticeThreshold (applyInputs self inputs) = noticeThreshold self /\
  warningThreshold (applyInputs self inputs) = warningThreshold self.
Proof.
  destruct inputs as [|x rest]; [repeat split|].
  rewrite applyInputs_nonempty.
  repeat match goal with
         | |- context [if ?b then _ else _] => destruct b
         end; repeat split.
Qed.

(** X12. For ordered thresholds, when every one of one or more inputs lies
    in the range of the same tier, [applyInputs] stores that tier and
    leaves the thresholds alone, whatever tier was stored before. *)
Theorem applyInputs_agreement (self : State) (t : Tier) (inputs : list Q) :
  infoThreshold self <= noticeThreshold self ->
  noticeThreshold self <= warningThreshold self ->
  inputs <> [] ->
  Forall (in_range self t) inputs ->
  applyInputs self inputs = set_state self (tier_name t).
Proof.
  intros Hin Hnw Hne Hall. destruct inputs as [|x rest]; [congruence|].
  rewrite applyInputs_nonempty.
  rewrite !(all_in_agree self t _ x rest Hin Hnw Hall).
  destruct t; reflexivity.
Qed.

Lemma applyInputs_agreement_witness :
  let self := mkState "normal" infoThresholdVolts noticeThresholdVolts warnThresholdVolts in
  applyInputs self [2.25; 2.3; 3.1] = set_state self (tier_name Warning).
Proof.
  apply (applyInputs_agreement
           (mkState "normal" infoThresholdVolts noticeThresholdVolts warnThresholdVolts)
           Warning [2.25; 2.3; 3.1]).
  - unfold Qle. simpl. lia.
  - unfold Qle. simpl. lia.
  - discriminate.
  - apply Forall_cons; [unfold in_range, Qle; simpl; lia|].
    apply Forall_cons; [unfold in_range, Qle; simpl; lia|].
    apply Forall_cons; [unfold in_range, Qle; simpl; lia|].
    apply Forall_nil.
Defined.

(** X13. The result of [applyInputs] depends only on which values are
    supplied, not on their order or on how often each occurs. *)
Theorem applyInputs_same_values (self : State) (l1 l2 : list Q) :
  (forall x, In x l1 <-> In x l2) ->
  applyInputs self l1 = applyInputs self l2.
Proof.
  intros Hsame. destruct l1 as [|x1 r1], l2 as [|x2 r2].
  - reflexivity.
  - exfalso. apply (Hsame x2). now left.
  - exfalso. apply (Hsame x1). now left.
  - rewrite !applyInputs_nonempty.
    rewrite !(all_in_same_values self _ (x1 :: r1) (x2 :: r2) Hsame).
    reflexivity.
Qed.

Lemma applyInputs_same_values_witness :
  applyInputs (State_init 2 2.12 2.20) [2.25; 1.5; 2.25] =
  applyInputs (State_init 2 2.12 2.20) [1.5; 2.25].
Proof.
  apply (applyInputs_same_values (State_init 2 2.12 2.20)
           [2.25; 1.5; 2.25] [1.5; 2.25]).
  intros x. simpl. tauto.
Defined.

(** X14. Applying the same inputs a second time changes nothing more. *)
Theorem applyInputs_idempotent (self : State) (inputs : list Q) :
  applyInputs (applyInputs self inputs) inputs = applyInputs self inputs.
Proof.
  destruct inputs as [|x rest]; [reflexivity|].
  rewrite (applyInputs_nonempty self).
  destruct (all_in self Normal (x :: rest)) eqn:E1;
    [rewrite applyInputs_nonempty, !all_in_set_state, E1; reflexivity|].
  destruct (all_in self Info (x :: rest)) eqn:E2;
    [rewrite applyInputs_nonempty, !all_in_set_state, E1, E2; reflexivity|].
  destruct (all_in self Notice (x :: rest)) eqn:E3;
    [rewrite applyInputs_nonempty, !all_in_set_state, E1, E2, E3; reflexivity|].
  destruct (all_in self Warning (x :: rest)) eqn:E4;
    [rewrite applyInputs_nonempty, !all_in_set_state, E1, E2, E3, E4; reflexivity|].
  rewrite applyInputs_nonempty, E1, E2, E3, E4. reflexivity.
Qed.

(** X15. [reduceAnd] returns None exactly for the empty list, and
    otherwise the conjunction of the results: True exactly when every
    result is True. *)
Theorem reduceAnd_spec (results : list bool) :
  (reduceAnd results = None <-> results = []) /\
  (reduceAnd results = Some true <->
   results <> [] /\ Forall (fun r => r = true) results) /\
  (results <> [] -> reduceAnd results = Some (forallb (fun r => r) results)).
Proof.
  assert (Hne : results <> [] ->
                reduceAnd results = Some (forallb (fun r => r) results)).
  { intros H. unfold reduceAnd. destruct results as [|r rest]; [congruence|].
    replace (Z.of_nat (List.length (r :: rest)) <? 1)%Z with false
      by (symmetry; apply Z.ltb_ge; simpl List.length; lia).
    now rewrite fold_and. }
  split; [|split; [|exact Hne]].
  - split; [|intros ->; reflexivity].
    destruct results as [|r rest]; [reflexivity|].
    rewrite Hne by discriminate. discriminate.
  - split.
    + destruct results as [|r rest]; [discriminate|].
      rewrite Hne by discriminate. intros H. injection H as H.
      split; [discriminate|]. apply Forall_forall.
      now apply (proj1 (forallb_forall _ _)).
    + intros [H1 H2]. rewrite (Hne H1). f_equal.
      apply forallb_forall. now apply Forall_forall.
Qed.

(** ** Main loop *)

Lemma capacity_ok_bounded (A : Type) (N : Z) (q : Queue A) :
  max q = Some N -> (1 <= N)%Z -> capacity_ok q.
Proof. intros Hmax HN M HM. congruence. Qed.

(** The buffer after an iteration. *)
Lemma tick_buffer (N : Z) (now v : Q) (sys sys1 : System) :
  max (recentLevels sys) = Some N -> (1 <= N)%Z ->
  tick now v sys = Ok sys1 ->
  recentLevels sys1 =
  mkQueue (Some N) (lastn (Z.to_nat N) (store (recentLevels sys) ++ [v])).
Proof.
  intros Hmax HN Ht.
  destruct (tick_inv _ _ _ _ Ht) as (q & a & Happ & _ & Hq & _).
  rewrite (append_bounded N) in Happ by assumption.
  injection Happ as <-. exact Hq.
Qed.

Lemma act_coolOffSeconds (b : branch) (now : Q) (p : AcPower) (d : DotStar) :
  coolOffSeconds (fst (act b now p d)) = coolOffSeconds p.
Proof.
  destruct b; simpl; trivial;
    try (unfold turnAcOn; destruct (negb (isCoolingOff now p)); reflexivity).
  destruct (Bool.eqb (switch_value p) true || Qeq_bool (powerOffTime p) (-1));
    reflexivity.
Qed.

(** What stays fixed while the program runs. *)
Lemma reachable_config (sys : System) :
  reachable sys ->
  max (recentLevels sys) = Some 10%Z /\
  (List.length (store (recentLevels sys)) <= 10)%nat /\
  coolOffSeconds (acPower sys) = 60 /\
  infoThreshold (state_obj sys) = infoThresholdVolts /\
  noticeThreshold (state_obj sys) = noticeThresholdVolts /\
  warningThreshold (state_obj sys) = warnThresholdVolts.
Proof.
  induction 1 as [|sys now v sys1 Hr (Hmax & Hlen & Hc & Hi & Hn & Hw) Ht].
  - repeat split. simpl. lia.
  - pose proof (tick_buffer 10 now v sys sys1 Hmax ltac:(lia) Ht) as Hq.
    destruct (tick_inv _ _ _ _ Ht) as (_ & a & _ & _ & _ & Hst & Hp & _).
    destruct (applyInputs_thresholds (state_obj sys) [v; a]) as (Ti & Tn & Tw).
    rewrite Hq, Hst, Hp, act_coolOffSeconds, Ti, Tn, Tw. cbn [max store].
    repeat split; trivial. rewrite lastn_length. lia.
Qed.

(** X16. The loop never raises: in every state the program reaches, the
    buffer keeps its capacity of 10 and at most 10 readings, the cool-off
    period stays 60 and the thresholds stay the configured ones, and the
    next iteration returns for every clock value and every voltage. *)
Theorem loop_never_raises (sys : System) :
  reachable sys ->
  (max (recentLevels sys) = Some 10%Z /\
   (List.length (store (recentLevels sys)) <= 10)%nat /\
   coolOffSeconds (acPower sys) = 60 /\
   infoThreshold (state_obj sys) = infoThresholdVolts /\
   noticeThreshold (state_obj sys) = noticeThresholdVolts /\
   warningThreshold (state_obj sys) = warnThresholdVolts) /\
  forall now v, exists sys1, tick now v sys = Ok sys1 /\ reachable sys1.
Proof.
  intros Hr. pose proof (reachable_config sys Hr) as Hcfg.
  split; [exact Hcfg|]. intros now v.
  destruct Hcfg as (Hmax & _).
  destruct (tick_total now v sys (capacity_ok_bounded Q 10 _ Hmax ltac:(lia)))
    as (_ & _ & sys1 & _ & _ & _ & _ & _ & Ht).
  exists sys1. split; [exact Ht|]. exact (reachable_tick sys now v sys1 Hr Ht).
Qed.

Lemma loop_never_raises_witness :
  (max (recentLevels System_init) = Some 10%Z /\
   (List.length (store (recentLevels System_init)) <= 10)%nat /\
   coolOffSeconds (acPower System_init) = 60 /\
   infoThreshold (state_obj System_init) = infoThresholdVolts /\
   noticeThreshold (state_obj System_init) = noticeThresholdVolts /\
   warningThreshold (state_obj System_init) = warnThresholdVolts) /\
  forall now v, exists sys1, tick now v System_init = Ok sys1 /\ reachable sys1.
Proof.
  apply (loop_never_raises System_init). apply reachable_init.
Defined.

Lemma run_buffer (N : Z) (samples : list (Q * Q)) : forall sys,
  max (recentLevels sys) = Some N -> (1 <= N)%Z ->
  (List.length (store (recentLevels sys)) <= Z.to_nat N)%nat ->
  exists ts sys1,
    run sys samples = Ok (ts, sys1) /\
    List.length ts = List.length samples /\
    recentLevels sys1 =
    mkQueue (Some N)
            (lastn (Z.to_nat N) (store (recentLevels sys) ++ map snd samples)).
Proof.
  induction samples as [|[now v] rest IH]; intros sys Hmax HN Hlen.
  - exists [], sys. simpl. repeat split.
    rewrite app_nil_r, lastn_all by assumption.
    destruct (recentLevels sys); simpl in *; congruence.
  - destruct (tick_total now v sys (capacity_ok_bounded Q N _ Hmax HN))
      as (_ & _ & sys1 & _ & _ & _ & _ & _ & Ht).
    pose proof (tick_buffer N now v sys sys1 Hmax HN Ht) as Hq.
    destruct (IH sys1) as (ts & sys2 & Hrun & Hts & Hbuf).
    + rewrite Hq. reflexivity.
    + exact HN.
    + rewrite Hq. cbn [store]. rewrite lastn_length. lia.
    + exists (getState (state_obj sys1) :: ts), sys2.
      cbn [run]. rewrite Ht. cbn [bind]. rewrite Hrun. cbn [bind fst snd].
      split; [reflexivity|]. split; [simpl; congruence|].
      rewrite Hbuf, Hq. cbn [store map snd].
      rewrite lastn_app_lastn, <- app_assoc. reflexivity.
Qed.

(** X17. Running the loop from the initial state over any sequence of
    samples returns, prints one state per sample, and leaves in the buffer
    the last 10 voltages sampled, oldest first. *)
Theorem run_keeps_last_ten (samples : list (Q * Q)) :
  exists ts sys,
    run System_init samples = Ok (ts, sys) /\
    List.length ts = List.length samples /\
    store (recentLevels sys) = lastn 10 (map snd samples).
Proof.
  destruct (run_buffer 10 samples System_init eq_refl ltac:(lia))
    as (ts & sys & Hrun & Hts & Hbuf).
  { simpl. lia. }
  exists ts, sys. split; [exact Hrun|]. split; [exact Hts|].
  rewrite Hbuf. reflexivity.
Qed.

(** X18. Only a warning switches the power off: when the switch is on
    before an iteration and the iteration does not classify the level as
    warning, the switch is on afterwards. *)
Theorem non_warning_tick_keeps_power_on (now v : Q) (sys : System) :
  capacity_ok (recentLevels sys) ->
  switch_value (acPower sys) = acPowerOn ->
  exists sys1,
    tick now v sys = Ok sys1 /\
    (getState (state_obj sys1) <> "warning"%string ->
     switch_value (acPower sys1) = acPowerOn).
Proof.
  intros Hcap Hon.
  destruct (tick_total now v sys Hcap) as (_ & _ & sys1 & _ & _ & _ & _ & _ & Ht).
  exists sys1. split; [exact Ht|]. intros Hnw.
  destruct (tick_inv _ _ _ _ Ht) as (_ & _ & _ & _ & _ & _ & Hp & _).
  rewrite Hp.
  destruct (dispatch (getState (state_obj sys1))) eqn:Hd; cbn [act fst];
    try (unfold turnAcOn; destruct (negb (isCoolingOff now (acPower sys)));
         [reflexivity | exact Hon]).
  - apply dispatch_warning in Hd. contradiction.
  - exact Hon.
Qed.

Lemma non_warning_tick_keeps_power_on_witness :
  exists sys1,
    tick 0 1.5 System_init = Ok sys1 /\
    (getState (state_obj sys1) <> "warning"%string ->
     switch_value (acPower sys1) = acPowerOn).
Proof.
  apply (non_warning_tick_keeps_power_on 0 1.5 System_init).
  - intros N H. simpl in H. injection H as <-. lia.
  - reflexivity.
Defined.

(** In counts of the converter, the arm that a sampled voltage takes under
    the configured thresholds. *)
Lemma tier_of_getVoltage (pin_value : Z) :
  tier_of (state_obj System_init) (getVoltage pin_value) = pin_tier pin_value.
Proof.
  unfold tier_of, pin_tier, Qltb, getVoltage, Qdiv, Qmult, Qinv. simpl.
  repeat match goal with
         | |- context [(?a <? ?b)%Z] => destruct (Z.ltb_spec a b)
         end; try reflexivity; lia.
Qed.

(** The same for the mean of a buffer holding that one sample. *)
Lemma tier_of_single_mean (pin_value : Z) :
  tier_of (state_obj System_init) ((0 + getVoltage pin_value) / inject_Z 1)
  = pin_tier pin_value.
Proof.
  unfold tier_of, pin_tier, Qltb, getVoltage, Qdiv, Qmult, Qinv, Qplus. simpl.
  repeat match goal with
         | |- context [(?a <? ?b)%Z] => destruct (Z.ltb_spec a b)
         end; try reflexivity; lia.
Qed.

(** X19. The first iteration after start classifies by the sample alone
    (the buffer then holds only that sample, so the average agrees with
    it): the raw 16-bit sample gives normal below 39719, info from 39719,
    notice from 42102 and warning from 43691. *)
Theorem first_tick_by_sample (now : Q) (pin_value : Z) :
  exists sys1,
    tick now (getVoltage pin_value) System_init = Ok sys1 /\
    store (recentLevels sys1) = [getVoltage pin_value] /\
    getState (state_obj sys1) = tier_name (pin_tier pin_value).
Proof.
  assert (Hcap : capacity_ok (recentLevels System_init)).
  { intros N H. simpl in H. injection H as <-. lia. }
  destruct (tick_total now (getVoltage pin_value) System_init Hcap)
    as (_ & _ & sys1 & _ & _ & _ & _ & _ & Ht).
  exists sys1. split; [exact Ht|].
  destruct (tick_inv _ _ _ _ Ht) as (q & a & Happ & Havg & Hq & Hst & _).
  change (append (recentLevels System_init) (getVoltage pin_value))
    with (Ok (mkQueue (Some 10%Z) [getVoltage pin_value])) in Happ.
  injection Happ as <-.
  change (avg (mkQueue (Some 10%Z) [getVoltage pin_value]))
    with (Ok ((0 + getVoltage pin_value) / inject_Z 1)) in Havg.
  injection Havg as <-.
  split; [rewrite Hq; reflexivity|].
  rewrite Hst, applyInputs_nonempty. unfold all_in. cbn [forallb].
  rewrite tier_of_getVoltage, tier_of_single_mean.
  destruct (pin_tier pin_value); reflexivity.
Qed.

(** ** A steady level *)










